(** * mybot.py: phone-number ingestion, deduplication and Excel import

    A shallow embedding of [src/mybot.py].  The bot keeps one SQLite table
    [clients (username TEXT, phone_number TEXT UNIQUE, added_time TEXT)] and
    offers three ways of writing to it: a plain text message
    ([handle_message]), the [/batch] command ([batch_input]) and the upload
    of a spreadsheet ([import_data]).

    Python strings are sequences of Unicode code points, and the three
    [str] methods the bot relies on ([strip], [isdigit], [startswith]) are
    defined over the whole code space, so strings are modelled as lists of
    code points and the character classes as the range tables of the
    Unicode database (version 14.0, the one of CPython 3.11). *)

From Stdlib Require Import List NArith Bool Arith Lia Ascii String.
Import ListNotations.

Set Implicit Arguments.

(** ** Python strings *)

Module PyStr.

(** A code point, [0 .. 0x10FFFF]. *)
Definition char := N.
Definition str := list char.

(** An ASCII literal as a Python string. *)
Definition lit (x : string) : str := map N_of_ascii (list_ascii_of_string x).

Fixpoint eqb (a b : str) : bool :=
  match a, b with
  | [], [] => true
  | c :: a', d :: b' => N.eqb c d && eqb a' b'
  | _, _ => false
  end.

(** Membership of a code point in a table of inclusive ranges. *)
Definition in_range (c : char) (r : N * N) : bool :=
  (N.leb (fst r) c && N.leb c (snd r))%bool.

Definition in_table (tbl : list (N * N)) (c : char) : bool :=
  existsb (in_range c) tbl.

(** [str.isspace] on one character: bidirectional class WS, B or S, or
    general category Zs. *)
Definition space_table : list (N * N) :=
  [ (9, 13); (28, 32); (133, 133); (160, 160); (5760, 5760); (8192, 8202);
    (8232, 8233); (8239, 8239); (8287, 8287); (12288, 12288) ]%N.

(** [str.isdigit] on one character: Numeric_Type Decimal or Digit.  Besides
    the decimal digits of every script this holds the superscripts
    U+00B2, U+00B3, U+00B9, the sub- and superscripts U+2070..U+2089, the
    circled and parenthesised digits, and the like. *)
Definition digit_table : list (N * N) :=
  [ (48, 57); (178, 179); (185, 185); (1632, 1641); (1776, 1785);
    (1984, 1993); (2406, 2415); (2534, 2543); (2662, 2671); (2790, 2799);
    (2918, 2927); (3046, 3055); (3174, 3183); (3302, 3311); (3430, 3439);
    (3558, 3567); (3664, 3673); (3792, 3801); (3872, 3881); (4160, 4169);
    (4240, 4249); (4969, 4977); (6112, 6121); (6160, 6169); (6470, 6479);
    (6608, 6618); (6784, 6793); (6800, 6809); (6992, 7001); (7088, 7097);
    (7232, 7241); (7248, 7257); (8304, 8304); (8308, 8313); (8320, 8329);
    (9312, 9320); (9332, 9340); (9352, 9360); (9450, 9450); (9461, 9469);
    (9471, 9471); (10102, 10110); (10112, 10120); (10122, 10130);
    (42528, 42537); (43216, 43225); (43264, 43273); (43472, 43481);
    (43504, 43513); (43600, 43609); (44016, 44025); (65296, 65305);
    (66720, 66729); (68160, 68163); (68912, 68921); (69216, 69224);
    (69714, 69722); (69734, 69743); (69872, 69881); (69942, 69951);
    (70096, 70105); (70384, 70393); (70736, 70745); (70864, 70873);
    (71248, 71257); (71360, 71369); (71472, 71481); (71904, 71913);
    (72016, 72025); (72784, 72793); (73040, 73049); (73120, 73129);
    (92768, 92777); (92864, 92873); (93008, 93017); (120782, 120831);
    (123200, 123209); (123632, 123641); (125264, 125273);
    (127232, 127242); (130032, 130041) ]%N.

(** General category Nd, the class a Unicode-aware regular expression
    engine gives to [\d] (Python's [re] on [str] patterns). *)
Definition decimal_table : list (N * N) :=
  [ (48, 57); (1632, 1641); (1776, 1785); (1984, 1993); (2406, 2415);
    (2534, 2543); (2662, 2671); (2790, 2799); (2918, 2927); (3046, 3055);
    (3174, 3183); (3302, 3311); (3430, 3439); (3558, 3567); (3664, 3673);
    (3792, 3801); (3872, 3881); (4160, 4169); (4240, 4249); (6112, 6121);
    (6160, 6169); (6470, 6479); (6608, 6617); (6784, 6793); (6800, 6809);
    (6992, 7001); (7088, 7097); (7232, 7241); (7248, 7257); (42528, 42537);
    (43216, 43225); (43264, 43273); (43472, 43481); (43504, 43513);
    (43600, 43609); (44016, 44025); (65296, 65305); (66720, 66729);
    (68912, 68921); (69734, 69743); (69872, 69881); (69942, 69951);
    (70096, 70105); (70384, 70393); (70736, 70745); (70864, 70873);
    (71248, 71257); (71360, 71369); (71472, 71481); (71904, 71913);
    (72016, 72025); (72784, 72793); (73040, 73049); (73120, 73129);
    (92768, 92777); (92864, 92873); (93008, 93017); (120782, 120831);
    (123200, 123209); (123632, 123641); (125264, 125273);
    (130032, 130041) ]%N.

Definition isspace_char : char -> bool := in_table space_table.
Definition isdigit_char : char -> bool := in_table digit_table.
Definition isdecimal_char : char -> bool := in_table decimal_table.

(** The ten ASCII digits ['0' .. '9']. *)
Definition is_ascii_digit (c : char) : bool := in_range c (48, 57)%N.

(** [s.isdigit()]: every character is a digit and there is at least one. *)
Definition isdigit (s : str) : bool :=
  (negb (Nat.eqb (List.length s) 0) && forallb isdigit_char s)%bool.

(** [s.startswith(prefix)]. *)
Fixpoint startswith (s prefix : str) : bool :=
  match prefix, s with
  | [], _ => true
  | p :: prefix', c :: s' => N.eqb c p && startswith s' prefix'
  | _ :: _, [] => false
  end.

(** [s[1:]]. *)
Definition from1 (s : str) : str := tl s.

(** [s.lstrip()], [s.rstrip()] and [s.strip()] without argument. *)
Fixpoint lstrip (s : str) : str :=
  match s with
  | [] => []
  | c :: s' => if isspace_char c then lstrip s' else s
  end.

Definition rstrip (s : str) : str := rev (lstrip (rev s)).

Definition strip (s : str) : str := rstrip (lstrip s).

End PyStr.

Import PyStr.

(** ** Exceptions and results *)

(** The exceptions the modelled code can raise: the UNIQUE constraint
    rejecting a plain [INSERT], a missing column in [row['...']], a cell the
    database driver cannot bind as a parameter (a time-of-day cell, an
    integer beyond 64 bits), and [pd.read_excel] failing on the file. *)
Inductive exn : Type :=
| IntegrityError
| KeyError (column : str)
| BindError
| ReadError.

Inductive result (A : Type) : Type :=
| Ok (a : A)
| Raise (e : exn).

Arguments Ok {A} a.
Arguments Raise {A} e.

Definition bind {A B : Type} (r : result A) (k : A -> result B) : result B :=
  match r with
  | Ok a => k a
  | Raise e => Raise e
  end.

Notation "x <- r ;; k" := (bind r (fun x => k))
  (at level 61, r at next level, right associativity).

(** What a Python function hands back to its caller. *)
Inductive pyval : Type :=
| PyNone
| PyBool (b : bool).

(** ** The [clients] table *)

(** A stored column value: SQL NULL or a text.  All three columns have TEXT
    affinity, so a number bound to them is stored as its text. *)
Definition value := option str.

Record client : Type := {
  username : value;
  phone_number : value;
  added_time : value
}.

(** The table in rowid order, as [SELECT * FROM clients] returns it. *)
Definition table := list client.

(** [CREATE TABLE IF NOT EXISTS clients (...)] on a database file that has
    the table already, or has not. *)
Definition init_db (file : option table) : table :=
  match file with
  | Some db => db
  | None => []
  end.

Definition phone_is (p : str) (r : client) : bool :=
  match phone_number r with
  | Some q => PyStr.eqb q p
  | None => false
  end.

(** [SELECT 1 FROM clients WHERE phone_number = ?] followed by
    [fetchone() is not None]. *)
Definition select_phone (db : table) (p : str) : bool := existsb (phone_is p) db.

(** [phone_number TEXT UNIQUE]: a new row conflicts when its phone number is
    a text that some stored row has; NULLs never conflict. *)
Definition unique_conflict (db : table) (r : client) : bool :=
  match phone_number r with
  | Some p => select_phone db p
  | None => false
  end.

(** [INSERT INTO clients ... VALUES (?, ?, ?)]. *)
Definition insert (db : table) (r : client) : result table :=
  if unique_conflict db r then Raise IntegrityError else Ok (db ++ [r]).

(** [INSERT OR IGNORE INTO clients ... VALUES (?, ?, ?)]. *)
Definition insert_or_ignore (db : table) (r : client) : table :=
  if unique_conflict db r then db else db ++ [r].

(** The texts in the [phone_number] column. *)
Fixpoint phones (db : table) : list str :=
  match db with
  | [] => []
  | r :: db' =>
      match phone_number r with
      | Some p => p :: phones db'
      | None => phones db'
      end
  end.

(** ** Database functions of the bot *)

Definition number_exists (db : table) (phone : str) : bool := select_phone db phone.

(** [add_number]: the insert is committed; an [IntegrityError] is swallowed
    by [except sqlite3.IntegrityError: pass].  The function has no [return]
    statement. *)
Definition add_number (user phone time : str) (db : table) : table * result pyval :=
  match insert db {| username := Some user; phone_number := Some phone;
                     added_time := Some time |} with
  | Ok db' => (db', Ok PyNone)
  | Raise IntegrityError => (db, Ok PyNone)
  | Raise e => (db, Raise e)
  end.

(** ** Import of a spreadsheet *)

(** A cell of the data frame as it reaches the database driver: an empty
    cell (NaN, bound as NULL), a value stored as text, or a value the driver
    refuses to bind.  The frame is taken as [pd.read_excel] returns it: the
    reader infers a type for each column, so what a sheet shows as text may
    arrive as a number or as NaN, and the cells here are the values after
    that step. *)
Inductive cell : Type :=
| CNull
| CText (s : str)
| CUnbindable.

(** The data frame [pd.read_excel] builds: the header and the data rows,
    each row aligned with the header. *)
Record dataframe : Type := {
  columns : list str;
  rows : list (list cell)
}.

(** An uploaded file: [None] when [pd.read_excel] raises on it. *)
Definition xlsx := option dataframe.

(** [row[name]]. *)
Fixpoint getitem (cols : list str) (r : list cell) (name : str) : result cell :=
  match cols, r with
  | c :: cols', v :: r' => if PyStr.eqb c name then Ok v else getitem cols' r' name
  | _, _ => Raise (KeyError name)
  end.

Definition bind_param (c : cell) : result value :=
  match c with
  | CNull => Ok None
  | CText s => Ok (Some s)
  | CUnbindable => Raise BindError
  end.

(** One turn of [for _, row in df.iterrows()]. *)
Definition import_row (cols : list str) (conn : table) (r : list cell) : result table :=
  u <- getitem cols r (lit "username") ;;
  p <- getitem cols r (lit "phone_number") ;;
  t <- getitem cols r (lit "added_time") ;;
  u' <- bind_param u ;;
  p' <- bind_param p ;;
  t' <- bind_param t ;;
  Ok (insert_or_ignore conn {| username := u'; phone_number := p'; added_time := t' |}).

Fixpoint import_rows (cols : list str) (conn : table) (rs : list (list cell))
  : result table :=
  match rs with
  | [] => Ok conn
  | r :: rs' => conn' <- import_row cols conn r ;; import_rows cols conn' rs'
  end.

(** The message [import_data] returns. *)
Inductive summary : Type :=
| ImportSuccess
| ImportFailed (e : exn).

(** [import_data]: the rows are written on one connection and committed
    after the loop; when anything raises, [except Exception] returns the
    failure message and the connection is dropped without a commit, so the
    database keeps its former content. *)
Definition import_data (db : table) (file : xlsx) : table * summary :=
  match file with
  | None => (db, ImportFailed ReadError)
  | Some df =>
      match import_rows (columns df) db (rows df) with
      | Ok conn => (conn, ImportSuccess)
      | Raise e => (db, ImportFailed e)
      end
  end.

(** ** Message handlers *)

(** What the bot answers. *)
Inductive reply : Type :=
| ReplyInvalid
| ReplyExists (text : str)
| ReplySaved (text : str)
| ReplyUsage
| ReplyBatch (added existing invalid : list str).

(** [update.message.from_user.username or "unknown"]. *)
Definition username_or_unknown (u : option str) : str :=
  match u with
  | Some (c :: s) => c :: s
  | _ => lit "unknown"
  end.

(** [text.startswith("+") and text[1:].isdigit() and 7 <= len(text[1:]) <= 15]. *)
Definition valid_phone (text : str) : bool :=
  (startswith text (lit "+") && isdigit (from1 text)
   && Nat.leb 7 (List.length (from1 text))
   && Nat.leb (List.length (from1 text)) 15)%bool.

Definition handle_message (db : table) (from_user : option str)
    (message_text now : str) : table * result reply :=
  let text := strip message_text in
  let user := username_or_unknown from_user in
  if negb (valid_phone text) then (db, Ok ReplyInvalid)
  else if number_exists db text then (db, Ok (ReplyExists text))
  else
    match add_number user text now db with
    | (db', Ok _) => (db', Ok (ReplySaved text))
    | (db', Raise e) => (db', Raise e)
    end.

(** The three lists of [batch_input] and its connection. *)
Record batch_state : Type := {
  conn : table;
  added_list : list str;
  exists_list : list str;
  invalid_list : list str
}.

(** One turn of [for num in numbers]. *)
Definition batch_step (user time : str) (st : batch_state) (num : str)
  : result batch_state :=
  let num := strip num in
  if valid_phone num then
    if select_phone (conn st) num then
      Ok {| conn := conn st; added_list := added_list st;
            exists_list := exists_list st ++ [num];
            invalid_list := invalid_list st |}
    else
      conn' <- insert (conn st) {| username := Some user; phone_number := Some num;
                                   added_time := Some time |} ;;
      Ok {| conn := conn'; added_list := added_list st ++ [num];
            exists_list := exists_list st; invalid_list := invalid_list st |}
  else
    Ok {| conn := conn st; added_list := added_list st;
          exists_list := exists_list st;
          invalid_list := invalid_list st ++ [num] |}.

Fixpoint batch_loop (user time : str) (st : batch_state) (numbers : list str)
  : result batch_state :=
  match numbers with
  | [] => Ok st
  | num :: numbers' =>
      st' <- batch_step user time st num ;; batch_loop user time st' numbers'
  end.

Definition batch_start (db : table) : batch_state :=
  {| conn := db; added_list := []; exists_list := []; invalid_list := [] |}.

(** [batch_input]: without arguments the usage text; otherwise the loop on
    one connection, committed at the end.  An exception leaves the
    connection uncommitted. *)
Definition batch_input (db : table) (from_user : option str)
    (args : list str) (now : str) : table * result reply :=
  match args with
  | [] => (db, Ok ReplyUsage)
  | _ :: _ =>
      match batch_loop (username_or_unknown from_user) now (batch_start db) args with
      | Ok st => (conn st, Ok (ReplyBatch (added_list st) (exists_list st) (invalid_list st)))
      | Raise e => (db, Raise e)
      end
  end.

(** ** Histories *)

(** The operations that write to the table. *)
Inductive op : Type :=
| Message (from_user : option str) (text now : str)
| Batch (from_user : option str) (args : list str) (now : str)
| Import (file : xlsx).

Definition run_op (db : table) (o : op) : table :=
  match o with
  | Message u text now => fst (handle_message db u text now)
  | Batch u args now => fst (batch_input db u args now)
  | Import file => fst (import_data db file)
  end.

Definition run_ops (db : table) (os : list op) : table := fold_left run_op os db.

(** ** The format rule of the specification *)

(** A leading ['+'], then 7 to 15 characters of the class [digit], and
    nothing else: the language of [^\+\d{7,15}$] for a given reading of
    [\d]. *)
Definition matches_format (digit : char -> bool) (s : str) : bool :=
  match s with
  | c :: ds =>
      (N.eqb c 43 && forallb digit ds
       && Nat.leb 7 (List.length ds) && Nat.leb (List.length ds) 15)%bool
  | [] => false
  end.

(** The canonical phone numbers of the specification: ASCII digits. *)
Definition canonical (s : str) : bool := matches_format is_ascii_digit s.

(** No two records with the same phone number string. *)
Definition unique_phones (db : table) : Prop := NoDup (phones db).

(** Sample data. *)
Definition us_number : str := lit "+11234567890".
Definition uk_number : str := lit "+441234567890".
Definition stamp : str := lit "2024-05-01 10:00:00".
Definition header : list str := [lit "username"; lit "phone_number"; lit "added_time"].
(** ['+'] followed by seven times U+00B2 SUPERSCRIPT TWO. *)
Definition superscript_number : str := 43%N :: repeat 178%N 7.

(** Two range tables without a common code point. *)
Definition tables_apart (a b : list (N * N)) : bool :=
  forallb (fun r => forallb (fun s => N.ltb (snd r) (fst s) || N.ltb (snd s) (fst r)) b) a.

(** ** The classification of the specification *)

(** The record a handler writes for a number. *)
Definition new_client (user time phone : str) : client :=
  {| username := Some user; phone_number := Some phone; added_time := Some time |}.

Inductive outcome : Type :=
| Added
| Duplicate
| Invalid.

Definition outcome_eqb (a b : outcome) : bool :=
  match a, b with
  | Added, Added | Duplicate, Duplicate | Invalid, Invalid => true
  | _, _ => false
  end.

(** The outcome the specification gives to one entry of a batch: Invalid
    when the trimmed entry fails the validator, Duplicate when the number is
    in the persisted store or occurred earlier in the same batch, Added
    otherwise. *)
Definition classify (db : table) (earlier : list str) (raw : str) : outcome :=
  let p := strip raw in
  if valid_phone p then
    if (number_exists db p || existsb (PyStr.eqb p) (map strip earlier))%bool
    then Duplicate else Added
  else Invalid.

Fixpoint classify_batch (db : table) (earlier args : list str) : list (str * outcome) :=
  match args with
  | [] => []
  | raw :: args' =>
      (strip raw, classify db earlier raw) :: classify_batch db (earlier ++ [raw]) args'
  end.

(** The entries with a given outcome, in submission order. *)
Definition picked (o : outcome) (l : list (str * outcome)) : list str :=
  map fst (filter (fun e => outcome_eqb (snd e) o) l).

(** ** Import files *)


(** The header has the three expected columns. *)
Definition has_columns (df : dataframe) : bool :=
  (existsb (PyStr.eqb (lit "username")) (columns df)
   && existsb (PyStr.eqb (lit "phone_number")) (columns df)
   && existsb (PyStr.eqb (lit "added_time")) (columns df))%bool.

(** The file cannot be parsed into the expected columns: it cannot be read
    at all, or a column is missing. *)
Definition unparseable (file : xlsx) : bool :=
  match file with
  | None => true
  | Some df => negb (has_columns df)
  end.

(** The sheet was read and has no data row. *)
Definition empty_sheet (file : xlsx) : bool :=
  match file with
  | Some df => match rows df with [] => true | _ :: _ => false end
  | None => false
  end.

(** The row of the data frame has a phone number: its value is not NaN. *)
Definition has_phone (cols : list str) (r : list cell) : bool :=
  match getitem cols r (lit "phone_number") with
  | Ok CNull => false
  | _ => true
  end.

(** No record violates the format rule: every record has a phone number,
    and a canonical one. *)
Definition well_formatted (db : table) : Prop :=
  Forall (fun r => exists p, phone_number r = Some p /\ canonical p = true) db.

(** A text of ASCII characters only. *)
Definition is_ascii (c : char) : bool := N.ltb c 128.

Definition ascii_text (s : str) : bool := forallb is_ascii s.

(** A message or a batch whose texts are ASCII. *)
Definition ascii_ingestion (o : op) : bool :=
  match o with
  | Message _ text _ => ascii_text text
  | Batch _ args _ => forallb ascii_text args
  | Import _ => false
  end.

(** Sample files. *)
Definition bob : str := lit "bob".
Definition blank_phone_file : xlsx :=
  Some {| columns := header; rows := [[CText bob; CNull; CText stamp]] |}.
Definition headerless_file : xlsx :=
  Some {| columns := [lit "name"; lit "phone"]; rows := [] |}.
Definition mixed_file : xlsx :=
  Some {| columns := header;
          rows := [[CText bob; CText us_number; CText stamp];
                   [CText bob; CText (lit "abc"); CText stamp]] |}.

(** The phone number value of a row of the data frame is the text [q]. *)
Definition row_phone_is (cols : list str) (q : str) (r : list cell) : bool :=
  match getitem cols r (lit "phone_number") with
  | Ok (CText p) => PyStr.eqb p q
  | _ => false
  end.

Definition bindable (c : cell) : bool :=
  match c with
  | CUnbindable => false
  | _ => true
  end.

(** A row aligned with the header, all of whose cells the driver binds. *)
Definition well_formed_row (cols : list str) (r : list cell) : bool :=
  (Nat.eqb (List.length r) (List.length cols) && forallb bindable r)%bool.


(** * Properties *)

(** ** Strings and character classes *)

Lemma eqb_eq (a b : str) : PyStr.eqb a b = true <-> a = b.
Proof.
  revert b; induction a as [|c a IH]; intros [|d b]; simpl; split;
    try congruence; try reflexivity.
  - intros H. apply andb_true_iff in H as [Hc Hs].
    apply N.eqb_eq in Hc. apply IH in Hs. congruence.
  - intros H. injection H as -> ->.
    apply andb_true_iff; split; [apply N.eqb_refl | now apply IH].
Qed.

Lemma eqb_refl (a : str) : PyStr.eqb a a = true.
Proof. now apply eqb_eq. Qed.

Lemma eqb_neq (a b : str) : PyStr.eqb a b = false <-> a <> b.
Proof.
  split.
  - intros H E. apply eqb_eq in E. congruence.
  - intros H. destruct (PyStr.eqb a b) eqn:E; [|reflexivity].
    apply eqb_eq in E. contradiction.
Qed.

Lemma eqb_sym (a b : str) : PyStr.eqb a b = PyStr.eqb b a.
Proof.
  destruct (PyStr.eqb b a) eqn:E.
  - apply eqb_eq in E. subst. apply eqb_refl.
  - apply eqb_neq in E. apply eqb_neq. congruence.
Qed.

Lemma tables_apart_sound (a b : list (N * N)) (c : char) :
  tables_apart a b = true -> in_table a c = true -> in_table b c = false.
Proof.
  intros Hab Ha.
  destruct (in_table b c) eqn:Hb; [|reflexivity].
  apply existsb_exists in Ha as [r [Hr Hrc]].
  apply existsb_exists in Hb as [s [Hs Hsc]].
  unfold tables_apart in Hab.
  rewrite forallb_forall in Hab. specialize (Hab r Hr).
  rewrite forallb_forall in Hab. specialize (Hab s Hs).
  unfold in_range in *.
  apply andb_true_iff in Hrc as [H1 H2]. apply andb_true_iff in Hsc as [H3 H4].
  apply N.leb_le in H1, H2, H3, H4.
  apply orb_true_iff in Hab as [H | H]; apply N.ltb_lt in H; lia.
Qed.

Lemma digit_not_space (c : char) : isdigit_char c = true -> isspace_char c = false.
Proof. apply tables_apart_sound. vm_compute. reflexivity. Qed.

Lemma ascii_digit_isdigit (c : char) : is_ascii_digit c = true -> isdigit_char c = true.
Proof.
  intros H. apply existsb_exists. exists (48, 57)%N. split; [|exact H].
  unfold digit_table. left. reflexivity.
Qed.

Lemma ascii_digit_isdecimal (c : char) : is_ascii_digit c = true -> isdecimal_char c = true.
Proof.
  intros H. apply existsb_exists. exists (48, 57)%N. split; [|exact H].
  unfold decimal_table. left. reflexivity.
Qed.

(** Below U+0080 the only digits are ['0' .. '9']. *)
Lemma isdigit_ascii (c : char) : (c < 128)%N -> isdigit_char c = is_ascii_digit c.
Proof.
  intros Hc. unfold isdigit_char, in_table, digit_table.
  cbn [existsb]. fold (is_ascii_digit c).
  destruct (is_ascii_digit c); [reflexivity|]. cbn [orb].
  apply not_true_is_false. intros H.
  repeat (apply orb_true_iff in H as [H | H];
          [unfold in_range in H; cbn [fst snd] in H;
           apply andb_true_iff in H as [H _]; apply N.leb_le in H; lia|]).
  discriminate.
Qed.

Lemma forallb_ext_in {A : Type} (f g : A -> bool) (l : list A) :
  (forall x, In x l -> f x = g x) -> forallb f l = forallb g l.
Proof.
  induction l as [|x l IH]; simpl; intros H; [reflexivity|].
  rewrite (H x (or_introl eq_refl)), IH; auto.
Qed.

Lemma forallb_impl {A : Type} (f g : A -> bool) (l : list A) :
  (forall x, f x = true -> g x = true) -> forallb f l = true -> forallb g l = true.
Proof.
  intros Hfg H. rewrite forallb_forall in *. auto.
Qed.

(** The validator of the handlers, read as a format: a ['+'], then 7 to 15
    characters that [str.isdigit] accepts. *)
Lemma valid_phone_format (s : str) : valid_phone s = matches_format isdigit_char s.
Proof.
  destruct s as [|c ds]; [reflexivity|].
  unfold valid_phone, matches_format, isdigit, from1, lit.
  destruct ds as [|d ds]; simpl.
  - now rewrite !andb_false_r.
  - now rewrite andb_true_r.
Qed.

Lemma canonical_valid (s : str) : canonical s = true -> valid_phone s = true.
Proof.
  rewrite valid_phone_format. unfold canonical, matches_format.
  destruct s as [|c ds]; [discriminate|].
  intros H. repeat (apply andb_true_iff in H as [H ?]).
  repeat (apply andb_true_iff; split); auto.
  eapply forallb_impl; [apply ascii_digit_isdigit | assumption].
Qed.

(** X14.  On ASCII strings the validator is exactly the canonical format:
    it accepts a string of code points below U+0080 if and only if the
    string is a '+' followed by 7 to 15 of the digits '0' to '9'. *)
Lemma valid_phone_ascii (s : str) :
  Forall (fun c => (c < 128)%N) s -> valid_phone s = canonical s.
Proof.
  intros Hs. rewrite valid_phone_format. unfold canonical, matches_format.
  destruct s as [|c ds]; [reflexivity|].
  inversion Hs as [|? ? _ Hds]; subst.
  rewrite (forallb_ext_in isdigit_char is_ascii_digit ds); [reflexivity|].
  intros x Hx. apply isdigit_ascii. rewrite Forall_forall in Hds. auto.
Qed.

(** A string the validator accepts starts with ['+'] and ends in a digit. *)
Lemma valid_phone_shape (p : str) :
  valid_phone p = true ->
  exists mid d, p = 43%N :: mid ++ [d] /\ isdigit_char d = true.
Proof.
  rewrite valid_phone_format. destruct p as [|c ds]; [discriminate|]. simpl.
  intros H. repeat (apply andb_true_iff in H as [H ?]).
  apply N.eqb_eq in H. subst c.
  destruct (exists_last (l := ds)) as [mid [d ->]].
  { intros ->. discriminate. }
  exists mid, d. split; [reflexivity|].
  rewrite forallb_app in H2. apply andb_true_iff in H2 as [_ Hd].
  simpl in Hd. now rewrite andb_true_r in Hd.
Qed.

Lemma lstrip_spaces (ws rest : str) (c : char) :
  forallb isspace_char ws = true -> isspace_char c = false ->
  lstrip (ws ++ c :: rest) = c :: rest.
Proof.
  induction ws as [|w ws IH]; simpl; intros Hws Hc.
  - now rewrite Hc.
  - apply andb_true_iff in Hws as [Hw Hws]. rewrite Hw. auto.
Qed.

Lemma rstrip_spaces (ws body : str) (c : char) :
  forallb isspace_char ws = true -> isspace_char c = false ->
  rstrip (body ++ c :: ws) = body ++ [c].
Proof.
  intros Hws Hc. unfold rstrip.
  rewrite rev_app_distr. simpl. rewrite <- app_assoc. simpl.
  rewrite lstrip_spaces; auto.
  - simpl. now rewrite rev_involutive.
  - rewrite forallb_forall in *. intros x Hx. apply Hws. now apply in_rev.
Qed.

(** A number the validator accepts, padded with white space on both sides,
    is stripped to the number itself. *)
Lemma strip_padded (ws1 p ws2 : str) :
  valid_phone p = true ->
  forallb isspace_char ws1 = true -> forallb isspace_char ws2 = true ->
  strip (ws1 ++ p ++ ws2) = p.
Proof.
  intros Hp H1 H2.
  destruct (valid_phone_shape p Hp) as [mid [d [-> Hd]]].
  unfold strip. simpl app.
  rewrite lstrip_spaces; [|assumption|reflexivity].
  rewrite <- app_assoc. simpl app.
  change (43%N :: mid ++ d :: ws2) with ((43%N :: mid) ++ d :: ws2).
  rewrite rstrip_spaces; auto using digit_not_space.
Qed.

Lemma strip_valid (p : str) : valid_phone p = true -> strip p = p.
Proof.
  intros Hp. pose proof (strip_padded [] p [] Hp eq_refl eq_refl) as H.
  simpl in H. now rewrite app_nil_r in H.
Qed.

(** ** The table and its UNIQUE constraint *)

Lemma phones_app (a b : table) : phones (a ++ b) = phones a ++ phones b.
Proof.
  induction a as [|r a IH]; simpl; [reflexivity|].
  destruct (phone_number r); simpl; now rewrite IH.
Qed.

Lemma select_phone_In (db : table) (p : str) :
  select_phone db p = true <-> In p (phones db).
Proof.
  unfold select_phone. induction db as [|r db IH]; simpl.
  - split; [discriminate | contradiction].
  - unfold phone_is at 1. destruct (phone_number r) as [q|]; simpl.
    + rewrite orb_true_iff, IH, eqb_eq. reflexivity.
    + exact IH.
Qed.

Lemma select_phone_app (a b : table) (p : str) :
  select_phone (a ++ b) p = (select_phone a p || select_phone b p)%bool.
Proof. apply existsb_app. Qed.

Lemma select_phone_new (user time q p : str) :
  select_phone [new_client user time q] p = PyStr.eqb q p.
Proof. unfold select_phone, phone_is. simpl. apply orb_false_r. Qed.

Lemma unique_snoc (db : table) (r : client) :
  unique_phones db -> unique_conflict db r = false -> unique_phones (db ++ [r]).
Proof.
  unfold unique_phones, unique_conflict. intros Hdb Hr.
  rewrite phones_app. simpl. destruct (phone_number r) as [p|].
  - apply NoDup_app; [assumption | repeat constructor; intros [] |].
    intros a Ha [<- | []]. apply select_phone_In in Ha. congruence.
  - now rewrite app_nil_r.
Qed.

Lemma insert_or_ignore_unique (db : table) (r : client) :
  unique_phones db -> unique_phones (insert_or_ignore db r).
Proof.
  intros Hdb. unfold insert_or_ignore.
  destruct (unique_conflict db r) eqn:E; [assumption | now apply unique_snoc].
Qed.

Lemma insert_unique (db db' : table) (r : client) :
  unique_phones db -> insert db r = Ok db' -> unique_phones db'.
Proof.
  unfold insert. intros Hdb. destruct (unique_conflict db r) eqn:E; [discriminate|].
  intros [= <-]. now apply unique_snoc.
Qed.

(** ** The handlers, case by case *)

Lemma add_number_cases (db : table) (user phone time : str) :
  add_number user phone time db =
  ((if number_exists db phone then db else db ++ [new_client user time phone]),
   Ok PyNone).
Proof.
  unfold add_number, insert, unique_conflict, number_exists, new_client. simpl.
  destruct (select_phone db phone); reflexivity.
Qed.

Lemma handle_message_cases (db : table) (u : option str) (message_text now : str) :
  handle_message db u message_text now =
  let text := strip message_text in
  if valid_phone text then
    if number_exists db text then (db, Ok (ReplyExists text))
    else (db ++ [new_client (username_or_unknown u) now text], Ok (ReplySaved text))
  else (db, Ok ReplyInvalid).
Proof.
  unfold handle_message. cbv zeta.
  destruct (valid_phone (strip message_text)); simpl; [|reflexivity].
  destruct (number_exists db (strip message_text)) eqn:E; [reflexivity|].
  rewrite add_number_cases, E. reflexivity.
Qed.

Lemma batch_step_cases (user time : str) (st : batch_state) (num : str) :
  batch_step user time st num =
  Ok (let p := strip num in
      if valid_phone p then
        if select_phone (conn st) p then
          {| conn := conn st; added_list := added_list st;
             exists_list := exists_list st ++ [p]; invalid_list := invalid_list st |}
        else
          {| conn := conn st ++ [new_client user time p];
             added_list := added_list st ++ [p];
             exists_list := exists_list st; invalid_list := invalid_list st |}
      else
        {| conn := conn st; added_list := added_list st;
           exists_list := exists_list st; invalid_list := invalid_list st ++ [p] |}).
Proof.
  unfold batch_step, insert, unique_conflict, new_client. cbv zeta.
  destruct (valid_phone (strip num)); [|reflexivity].
  destruct (select_phone (conn st) (strip num)) eqn:E; [reflexivity|].
  simpl. rewrite E. reflexivity.
Qed.

Lemma batch_step_unique (user time : str) (st st' : batch_state) (num : str) :
  batch_step user time st num = Ok st' ->
  unique_phones (conn st) -> unique_phones (conn st').
Proof.
  rewrite batch_step_cases. cbv zeta. intros [= <-] Hst.
  destruct (valid_phone (strip num)); [|assumption].
  destruct (select_phone (conn st) (strip num)) eqn:E; simpl; [assumption|].
  apply unique_snoc; assumption.
Qed.

(** The loop of [batch_input] runs to its end: the plain [INSERT] is only
    reached after the [SELECT] on the same connection found nothing. *)
Lemma batch_loop_returns (user time : str) (numbers : list str) (st : batch_state) :
  exists st', batch_loop user time st numbers = Ok st'.
Proof.
  revert st. induction numbers as [|num numbers IH]; intros st; simpl.
  - now exists st.
  - rewrite batch_step_cases. simpl. apply IH.
Qed.

Lemma batch_loop_unique (user time : str) (numbers : list str) (st st' : batch_state) :
  batch_loop user time st numbers = Ok st' ->
  unique_phones (conn st) -> unique_phones (conn st').
Proof.
  revert st. induction numbers as [|num numbers IH]; intros st; simpl.
  - now intros [= <-].
  - destruct (batch_step user time st num) as [st1|e] eqn:E; simpl; [|discriminate].
    intros Hl Hst. eapply IH; [eassumption|]. eapply batch_step_unique; eassumption.
Qed.

Lemma import_row_unique (cols : list str) (db db' : table) (r : list cell) :
  import_row cols db r = Ok db' -> unique_phones db -> unique_phones db'.
Proof.
  unfold import_row, bind.
  destruct (getitem cols r (lit "username")); [|discriminate].
  destruct (getitem cols r (lit "phone_number")); [|discriminate].
  destruct (getitem cols r (lit "added_time")); [|discriminate].
  do 3 (destruct (bind_param _); [|discriminate]).
  intros [= <-]. apply insert_or_ignore_unique.
Qed.

Lemma import_rows_unique (cols : list str) (rs : list (list cell)) (db db' : table) :
  import_rows cols db rs = Ok db' -> unique_phones db -> unique_phones db'.
Proof.
  revert db. induction rs as [|r rs IH]; intros db; simpl.
  - now intros [= <-].
  - destruct (import_row cols db r) as [db1|e] eqn:E; simpl; [|discriminate].
    intros Hl Hdb. eapply IH; [eassumption|]. eapply import_row_unique; eassumption.
Qed.

Lemma handle_message_unique (db : table) (u : option str) (text now : str) :
  unique_phones db -> unique_phones (fst (handle_message db u text now)).
Proof.
  intros Hdb. rewrite handle_message_cases. cbv zeta.
  destruct (valid_phone (strip text)); [|assumption].
  destruct (number_exists db (strip text)) eqn:E; simpl; [assumption|].
  apply unique_snoc; assumption.
Qed.

Lemma batch_input_unique (db : table) (u : option str) (args : list str) (now : str) :
  unique_phones db -> unique_phones (fst (batch_input db u args now)).
Proof.
  intros Hdb. unfold batch_input. destruct args as [|a args]; [assumption|].
  destruct (batch_loop _ _ _ _) as [st|e] eqn:E; simpl; [|assumption].
  eapply batch_loop_unique; [eassumption | assumption].
Qed.

Lemma import_data_unique (db : table) (file : xlsx) :
  unique_phones db -> unique_phones (fst (import_data db file)).
Proof.
  intros Hdb. unfold import_data. destruct file as [df|]; [|assumption].
  destruct (import_rows _ _ _) as [db'|e] eqn:E; simpl; [|assumption].
  eapply import_rows_unique; eassumption.
Qed.

(** C1. Uniqueness invariant: a message, a batch or a file import run on a
    table in which no two records have the same phone number string leaves
    a table in which no two records have the same phone number string. *)
Theorem uniqueness_preserved (db : table) (o : op) :
  unique_phones db -> unique_phones (run_op db o).
Proof.
  intros Hdb. destruct o as [u text now | u args now | file]; simpl.
  - now apply handle_message_unique.
  - now apply batch_input_unique.
  - now apply import_data_unique.
Qed.

Lemma uniqueness_preserved_witness :
  unique_phones [new_client bob stamp us_number] /\
  unique_phones (run_op [new_client bob stamp us_number]
                        (Batch None [us_number; uk_number; uk_number] stamp)).
Proof.
  assert (H : unique_phones [new_client bob stamp us_number]).
  { repeat constructor. intros []. }
  split; [exact H | exact (uniqueness_preserved _ H)].
Defined.

(** X16.  The invariant along a whole history, from the empty table: after
    [init_db] on a fresh file and any sequence of messages, batches and
    imports, no two records have the same phone number. *)
Lemma uniqueness_history (os : list op) : unique_phones (run_ops (init_db None) os).
Proof.
  unfold run_ops. assert (H : unique_phones (init_db None)) by constructor.
  revert H. generalize (init_db None). induction os as [|o os IH]; intros db Hdb; simpl.
  - assumption.
  - apply IH. destruct o as [u text now | u args now | file]; simpl.
    + now apply handle_message_unique.
    + now apply batch_input_unique.
    + now apply import_data_unique.
Qed.

(** ** The format of the stored numbers *)

Lemma lstrip_incl (s : str) (c : char) : In c (lstrip s) -> In c s.
Proof.
  induction s as [|d s IH]; simpl; [auto|].
  destruct (isspace_char d); [right; auto | auto].
Qed.

Lemma strip_incl (s : str) (c : char) : In c (strip s) -> In c s.
Proof.
  unfold strip, rstrip. intros H.
  apply in_rev, lstrip_incl, in_rev in H. now apply lstrip_incl.
Qed.

Lemma strip_ascii (s : str) : ascii_text s = true -> ascii_text (strip s) = true.
Proof.
  unfold ascii_text. rewrite !forallb_forall. intros H c Hc.
  apply H. now apply strip_incl.
Qed.

(** An ASCII text the validator accepts is a canonical number. *)
Lemma valid_ascii_canonical (s : str) :
  ascii_text s = true -> valid_phone s = true -> canonical s = true.
Proof.
  rewrite valid_phone_format. unfold ascii_text, canonical, matches_format.
  destruct s as [|c ds]; [discriminate|]. cbn [forallb].
  intros Ha H. apply andb_true_iff in Ha as [_ Ha].
  rewrite (forallb_ext_in is_ascii_digit isdigit_char ds); [exact H|].
  intros x Hx. symmetry. apply isdigit_ascii.
  rewrite forallb_forall in Ha. apply N.ltb_lt. now apply Ha.
Qed.

Lemma well_formatted_snoc (db : table) (user time p : str) :
  well_formatted db -> canonical p = true ->
  well_formatted (db ++ [new_client user time p]).
Proof.
  intros Hdb Hp. apply Forall_app. split; [assumption|].
  constructor; [|constructor]. exists p. now split.
Qed.

Lemma handle_message_formatted (db : table) (u : option str) (text now : str) :
  ascii_text text = true ->
  well_formatted db -> well_formatted (fst (handle_message db u text now)).
Proof.
  intros Ha Hdb. rewrite handle_message_cases. cbv zeta.
  destruct (valid_phone (strip text)) eqn:V; [|assumption].
  destruct (number_exists db (strip text)); simpl; [assumption|].
  apply well_formatted_snoc; [assumption|].
  apply valid_ascii_canonical; [now apply strip_ascii | assumption].
Qed.

Lemma batch_loop_formatted (user time : str) (numbers : list str) (st st' : batch_state) :
  forallb ascii_text numbers = true ->
  batch_loop user time st numbers = Ok st' ->
  well_formatted (conn st) -> well_formatted (conn st').
Proof.
  revert st. induction numbers as [|num numbers IH]; intros st; simpl.
  - now intros _ [= <-].
  - intros Ha. apply andb_true_iff in Ha as [Hnum Ha].
    rewrite batch_step_cases. simpl. intros Hl Hst.
    eapply IH; [assumption | eassumption |].
    destruct (valid_phone (strip num)) eqn:V; [|assumption].
    destruct (select_phone (conn st) (strip num)); simpl; [assumption|].
    apply well_formatted_snoc; [assumption|].
    apply valid_ascii_canonical; [now apply strip_ascii | assumption].
Qed.

Lemma batch_input_formatted (db : table) (u : option str) (args : list str) (now : str) :
  forallb ascii_text args = true ->
  well_formatted db -> well_formatted (fst (batch_input db u args now)).
Proof.
  intros Ha Hdb. unfold batch_input. destruct args as [|a args]; [assumption|].
  destruct (batch_loop _ _ _ _) as [st|e] eqn:E; simpl; [|assumption].
  eapply batch_loop_formatted; [exact Ha | eassumption | assumption].
Qed.

(** C2, as stated, fails: a file import writes the phone number cell of a
    row as it is.  After importing a sheet with the row (bob, abc, ...) into
    the empty table, the table holds the phone number "abc", which is no
    '+' followed by 7 to 15 digits. *)
Lemma import_stores_unvalidated :
  In (lit "abc") (phones (run_ops (init_db None) [Import mixed_file])) /\
  canonical (lit "abc") = false /\
  valid_phone (lit "abc") = false.
Proof. vm_compute. repeat split. right. left. reflexivity. Qed.

(** C2, amended.  The two message handlers run the validator before they
    write; the file import writes what it reads without validating, which
    is why it has no part here.  Along every history of messages and
    batches of ASCII texts, a table in which no record violates the format
    rule ('+', then 7 to 15 digits '0' to '9') stays such a table. *)
Theorem format_preserved (os : list op) (db : table) :
  well_formatted db -> forallb ascii_ingestion os = true ->
  well_formatted (run_ops db os).
Proof.
  unfold run_ops. revert db. induction os as [|o os IH]; intros db Hdb Hos; simpl.
  - assumption.
  - simpl in Hos. apply andb_true_iff in Hos as [Ho Hos].
    apply IH; [|assumption].
    destruct o as [u text now | u args now | file]; simpl in *.
    + now apply handle_message_formatted.
    + now apply batch_input_formatted.
    + discriminate.
Qed.

Lemma format_preserved_witness :
  well_formatted (run_ops (init_db None)
    [ Message (Some bob) (lit " +11234567890 ") stamp;
      Batch None [uk_number; lit "abc"; lit "+44 1234 567890"; uk_number] stamp;
      Message None (lit "hello") stamp ]).
Proof.
  apply (format_preserved _ (db := init_db None)).
  - constructor.
  - vm_compute. reflexivity.
Defined.

(** ** The validator *)

(** C3.  The validator accepts '+' followed by seven times U+00B2
    (superscript two): [str.isdigit] holds of the superscript digits.  The
    string is no '+' followed by decimal digits, neither for the ASCII
    digits nor for the Unicode class Nd, and a message with this text is
    answered as saved and written to the table. *)
Theorem validator_accepts_superscripts :
  valid_phone superscript_number = true /\
  canonical superscript_number = false /\
  matches_format isdecimal_char superscript_number = false /\
  handle_message [] None superscript_number stamp =
    ([new_client (lit "unknown") stamp superscript_number],
     Ok (ReplySaved superscript_number)).
Proof. vm_compute. repeat split. Qed.

(** ** Insertion *)

(** C4, as stated, fails: [add_number] inserts a number that was absent and
    hands back [None], not [True]. *)
Lemma add_number_returns_none :
  number_exists [] us_number = false /\
  fst (add_number bob us_number stamp []) = [new_client bob stamp us_number] /\
  snd (add_number bob us_number stamp []) <> Ok (PyBool true).
Proof. vm_compute. repeat split. discriminate. Qed.

(** C4, amended.  [add_number] appends the record when no record has the
    phone number and leaves the table unchanged when one has; in both cases
    it returns [None], so the caller learns nothing from the call (the
    handler asks [number_exists] beforehand). *)
Theorem add_number_result (db : table) (user phone time : str) :
  add_number user phone time db =
  ((if number_exists db phone then db else db ++ [new_client user time phone]),
   Ok PyNone).
Proof. apply add_number_cases. Qed.

(** ** Single messages *)

Lemma number_exists_snoc (db : table) (user time p : str) :
  number_exists (db ++ [new_client user time p]) p = true.
Proof.
  unfold number_exists. rewrite select_phone_app, select_phone_new, eqb_refl.
  apply orb_true_r.
Qed.

(** C5.  A number the validator accepts and the table does not hold, sent
    twice as a message: the first message is answered as saved (the outcome
    Added) and the number is in the table afterwards, the second is answered
    as already existing (the outcome Duplicate) and changes nothing. *)
Theorem twice_added_then_duplicate (db : table) (u1 u2 : option str) (p now1 now2 : str) :
  valid_phone p = true -> number_exists db p = false ->
  let db1 := db ++ [new_client (username_or_unknown u1) now1 p] in
  handle_message db u1 p now1 = (db1, Ok (ReplySaved p)) /\
  number_exists db1 p = true /\
  handle_message db1 u2 p now2 = (db1, Ok (ReplyExists p)).
Proof.
  intros Hp Hdb db1. subst db1.
  rewrite !handle_message_cases. cbv zeta.
  rewrite (strip_valid p Hp), Hp, Hdb, number_exists_snoc. auto.
Qed.

Lemma twice_added_then_duplicate_witness :
  handle_message [] (Some bob) us_number stamp =
    ([new_client bob stamp us_number], Ok (ReplySaved us_number)) /\
  number_exists [new_client bob stamp us_number] us_number = true /\
  handle_message [new_client bob stamp us_number] None us_number stamp =
    ([new_client bob stamp us_number], Ok (ReplyExists us_number)).
Proof.
  exact (twice_added_then_duplicate [] (Some bob) None us_number stamp stamp
           eq_refl eq_refl).
Defined.

(** ** Batches *)

Lemma existsb_snoc {A : Type} (f : A -> bool) (l : list A) (x : A) :
  existsb f (l ++ [x]) = (existsb f l || f x)%bool.
Proof. rewrite existsb_app. simpl. now rewrite orb_false_r. Qed.

Lemma existsb_map_snoc {A B : Type} (f : B -> bool) (g : A -> B) (l : list A) (x : A) :
  existsb f (map g (l ++ [x])) = (existsb f (map g l) || f (g x))%bool.
Proof. rewrite map_app. apply existsb_snoc. Qed.

Lemma picked_cons (o c : outcome) (q : str) (l : list (str * outcome)) :
  picked o ((q, c) :: l) = if outcome_eqb c o then q :: picked o l else picked o l.
Proof. unfold picked. simpl. destruct (outcome_eqb c o); reflexivity. Qed.

(** The loop of [batch_input] computes the classification of the
    specification, provided the connection holds, among the numbers the
    validator accepts, the persisted ones and the earlier ones of the
    batch. *)
Lemma batch_loop_classified (db : table) (user time : str) (args earlier : list str)
    (st : batch_state) :
  (forall p, valid_phone p = true ->
     select_phone (conn st) p
     = (number_exists db p || existsb (PyStr.eqb p) (map strip earlier))%bool) ->
  batch_loop user time st args =
  Ok {| conn := conn st
                ++ map (new_client user time)
                       (picked Added (classify_batch db earlier args));
        added_list := added_list st ++ picked Added (classify_batch db earlier args);
        exists_list := exists_list st ++ picked Duplicate (classify_batch db earlier args);
        invalid_list := invalid_list st ++ picked Invalid (classify_batch db earlier args) |}.
Proof.
  revert earlier st. induction args as [|raw args IH]; intros earlier st Hst.
  - simpl. rewrite !app_nil_r. destruct st; reflexivity.
  - cbn [batch_loop classify_batch]. rewrite batch_step_cases. cbn [bind]. cbv zeta.
    unfold classify. cbv zeta. rewrite !picked_cons.
    destruct (valid_phone (strip raw)) eqn:V.
    + rewrite <- (Hst _ V).
      destruct (select_phone (conn st) (strip raw)) eqn:S; cbn [outcome_eqb].
      * rewrite (IH (earlier ++ [raw])); cbn [conn added_list exists_list invalid_list].
        -- now rewrite <- app_assoc.
        -- intros p Hp. rewrite existsb_map_snoc, orb_assoc, <- (Hst p Hp).
           destruct (PyStr.eqb p (strip raw)) eqn:E.
           ++ apply eqb_eq in E. subst p. rewrite S. reflexivity.
           ++ now rewrite orb_false_r.
      * rewrite (IH (earlier ++ [raw])); cbn [conn added_list exists_list invalid_list].
        -- cbn [map]. now rewrite <- !app_assoc.
        -- intros p Hp.
           rewrite select_phone_app, select_phone_new, existsb_map_snoc,
             orb_assoc, <- (Hst p Hp), (eqb_sym p). reflexivity.
    + cbn [outcome_eqb].
      rewrite (IH (earlier ++ [raw])); cbn [conn added_list exists_list invalid_list].
      * now rewrite <- app_assoc.
      * intros p Hp. rewrite existsb_map_snoc, orb_assoc, <- (Hst p Hp).
        destruct (PyStr.eqb p (strip raw)) eqn:E.
        -- apply eqb_eq in E. subst p. congruence.
        -- now rewrite orb_false_r.
Qed.

Lemma classify_batch_app (db : table) (pre post earlier : list str) :
  classify_batch db earlier (pre ++ post)
  = classify_batch db earlier pre ++ classify_batch db (earlier ++ pre) post.
Proof.
  revert earlier. induction pre as [|x pre IH]; intros earlier; simpl.
  - now rewrite app_nil_r.
  - rewrite IH, <- app_assoc. reflexivity.
Qed.

Lemma classify_batch_length (db : table) (args earlier : list str) :
  List.length (classify_batch db earlier args) = List.length args.
Proof.
  revert earlier. induction args as [|x args IH]; intros earlier; simpl; auto.
Qed.

Lemma classify_batch_nth (db : table) (pre post : list str) (x : str) :
  nth_error (classify_batch db [] (pre ++ x :: post)) (List.length pre)
  = Some (strip x, classify db pre x).
Proof.
  rewrite classify_batch_app, nth_error_app2; rewrite classify_batch_length; [|lia].
  rewrite Nat.sub_diag. reflexivity.
Qed.

Lemma existsb_eqb_In (p : str) (l : list str) :
  existsb (PyStr.eqb p) l = true <-> In p l.
Proof.
  rewrite existsb_exists. split.
  - intros [x [Hx E]]. apply eqb_eq in E. now subst.
  - intros H. exists p. split; [assumption | apply eqb_refl].
Qed.

(** C6.  A batch with at least one entry is answered with the three lists
    of the specification's classification, and the numbers classified Added
    are what is written.  In that classification an entry whose trimmed
    form the validator accepts is Duplicate whenever the same number
    occurred earlier in the batch, and the first occurrence is Added when
    the persisted table does not hold the number, Duplicate when it does. *)
Theorem batch_repeats_are_duplicates (db : table) (u : option str)
    (raw : str) (rest : list str) (now : str) :
  let args := raw :: rest in
  let cls := classify_batch db [] args in
  batch_input db u args now =
    (db ++ map (new_client (username_or_unknown u) now) (picked Added cls),
     Ok (ReplyBatch (picked Added cls) (picked Duplicate cls) (picked Invalid cls)))
  /\ (forall pre x post,
        args = pre ++ x :: post -> valid_phone (strip x) = true ->
        (In (strip x) (map strip pre) ->
           nth_error cls (List.length pre) = Some (strip x, Duplicate)) /\
        (~ In (strip x) (map strip pre) ->
           nth_error cls (List.length pre)
           = Some (strip x, if number_exists db (strip x) then Duplicate else Added))).
Proof.
  intros args cls. split.
  - unfold batch_input. subst args cls.
    rewrite (batch_loop_classified db _ _ (raw :: rest) [] (batch_start db)).
    + reflexivity.
    + intros p _. simpl. now rewrite orb_false_r.
  - intros pre x post E V. subst cls. rewrite E, classify_batch_nth.
    unfold classify. cbv zeta. rewrite V. split; intros H.
    + apply existsb_eqb_In in H. rewrite H, orb_true_r. reflexivity.
    + destruct (existsb (PyStr.eqb (strip x)) (map strip pre)) eqn:M.
      * apply existsb_eqb_In in M. contradiction.
      * now rewrite orb_false_r.
Qed.

Lemma batch_repeats_are_duplicates_witness :
  batch_input [] (Some bob) [us_number; us_number; lit "abc"] stamp =
    ([new_client bob stamp us_number],
     Ok (ReplyBatch [us_number] [us_number] [lit "abc"])) /\
  nth_error (classify_batch [] [] [us_number; us_number; lit "abc"]) 1
    = Some (us_number, Duplicate) /\
  nth_error (classify_batch [] [] [us_number; us_number; lit "abc"]) 0
    = Some (us_number, Added).
Proof.
  pose proof (batch_repeats_are_duplicates [] (Some bob) us_number
                [us_number; lit "abc"] stamp) as [Hrun Hcls].
  split; [exact Hrun|]. split.
  - refine (proj1 (Hcls [us_number] us_number [lit "abc"] eq_refl eq_refl) _).
    left. reflexivity.
  - refine (proj2 (Hcls [] us_number [us_number; lit "abc"] eq_refl eq_refl) _).
    intros [].
Defined.

(** ** Import *)


Lemma getitem_missing (name : str) (cols : list str) (r : list cell) :
  existsb (PyStr.eqb name) cols = false -> getitem cols r name = Raise (KeyError name).
Proof.
  revert r. induction cols as [|c cols IH]; intros r H; [reflexivity|].
  simpl in H. apply orb_false_iff in H as [Hc Hcols].
  destruct r as [|v r]; simpl; [reflexivity|].
  rewrite eqb_sym, Hc. now apply IH.
Qed.

Lemma import_row_missing_column (df : dataframe) (db : table) (r : list cell) :
  has_columns df = false -> exists e, import_row (columns df) db r = Raise e.
Proof.
  unfold has_columns, import_row, bind. intros H.
  apply andb_false_iff in H as [H | Ht]; [apply andb_false_iff in H as [Hu | Hp]|].
  - rewrite (getitem_missing _ _ r Hu). eauto.
  - destruct (getitem (columns df) r (lit "username")) as [cu|e]; [|now exists e].
    rewrite (getitem_missing _ _ r Hp). eauto.
  - destruct (getitem (columns df) r (lit "username")) as [cu|e]; [|now exists e].
    destruct (getitem (columns df) r (lit "phone_number")) as [cp|e]; [|now exists e].
    rewrite (getitem_missing _ _ r Ht). eauto.
Qed.

Lemma import_row_grows (cols : list str) (db db' : table) (r : list cell) :
  import_row cols db r = Ok db' -> incl (phones db) (phones db').
Proof.
  unfold import_row, bind.
  destruct (getitem cols r (lit "username")); [|discriminate].
  destruct (getitem cols r (lit "phone_number")); [|discriminate].
  destruct (getitem cols r (lit "added_time")); [|discriminate].
  do 3 (destruct (bind_param _); [|discriminate]).
  intros [= <-]. unfold insert_or_ignore.
  destruct (unique_conflict _ _); [apply incl_refl|].
  rewrite phones_app. apply incl_appl, incl_refl.
Qed.

Lemma import_rows_grows (cols : list str) (rs : list (list cell)) (db db' : table) :
  import_rows cols db rs = Ok db' -> incl (phones db) (phones db').
Proof.
  revert db. induction rs as [|r rs IH]; intros db; simpl.
  - intros [= <-]. apply incl_refl.
  - destruct (import_row cols db r) as [db1|e] eqn:E; simpl; [|discriminate].
    intros Hl. eapply incl_tran; [eapply import_row_grows; eassumption | now apply IH].
Qed.

(** A row of the frame with a phone number, once imported, is ignored by
    every table that holds the number. *)
Lemma import_row_again (cols : list str) (db db' : table) (r : list cell) :
  has_phone cols r = true -> import_row cols db r = Ok db' ->
  exists p, In p (phones db') /\
            forall db2, In p (phones db2) -> import_row cols db2 r = Ok db2.
Proof.
  unfold has_phone, import_row, bind. intros Hr Hi.
  destruct (getitem cols r (lit "username")) as [cu|]; [|discriminate].
  destruct (getitem cols r (lit "phone_number")) as [[|p|]|]; try discriminate.
  2: { destruct (getitem cols r (lit "added_time")); [|discriminate].
       destruct (bind_param cu); discriminate. }
  destruct (getitem cols r (lit "added_time")) as [ct|]; [|discriminate].
  destruct (bind_param cu) as [vu|]; [|discriminate].
  simpl in Hi. destruct (bind_param ct) as [vt|]; [|discriminate].
  injection Hi as <-. exists p. split.
  - unfold insert_or_ignore, unique_conflict. simpl.
    destruct (select_phone db p) eqn:S.
    + now apply select_phone_In.
    + rewrite phones_app. apply in_or_app. right. left. reflexivity.
  - intros db2 H2. apply select_phone_In in H2.
    unfold insert_or_ignore, unique_conflict. simpl. now rewrite H2.
Qed.

Lemma import_rows_again (cols : list str) (rs : list (list cell)) (db db1 : table) :
  forallb (has_phone cols) rs = true -> import_rows cols db rs = Ok db1 ->
  forall db2, incl (phones db1) (phones db2) -> import_rows cols db2 rs = Ok db2.
Proof.
  revert db. induction rs as [|r rs IH]; intros db Hrs; simpl.
  - reflexivity.
  - simpl in Hrs. apply andb_true_iff in Hrs as [Hr Hrs].
    destruct (import_row cols db r) as [dbm|e] eqn:E; simpl; [|discriminate].
    intros Hl db2 H2.
    destruct (import_row_again _ _ _ Hr E) as [p [Hp Hagain]].
    rewrite Hagain; simpl.
    + eapply IH; eassumption.
    + apply H2. eapply import_rows_grows; eassumption.
Qed.

(** X11.  Where the import is idempotent: on the data frames, as
    [pd.read_excel] returns them, in which no row has NaN for its phone
    number (and on those the import fails on, which write nothing), a
    second import of the same frame leaves the table of the first and
    repeats its summary. *)
Lemma reimport_with_phones (db : table) (df : dataframe) :
  forallb (has_phone (columns df)) (rows df) = true ->
  import_data (fst (import_data db (Some df))) (Some df)
  = (fst (import_data db (Some df)), snd (import_data db (Some df))).
Proof.
  intros H. unfold import_data.
  destruct (import_rows (columns df) db (rows df)) as [db1|e] eqn:E; simpl.
  - rewrite (import_rows_again _ _ _ H E db1 (incl_refl _)). reflexivity.
  - rewrite E. reflexivity.
Qed.

(** C7.  A sheet with a row whose phone number cell is empty, imported into
    the empty table and then imported again: the cell is stored as NULL,
    which the UNIQUE constraint never rejects, so the second import writes
    the row once more and the table has grown. *)
Theorem reimport_adds_blank_rows :
  let r := {| username := Some bob; phone_number := None; added_time := Some stamp |} in
  import_data (init_db None) blank_phone_file = ([r], ImportSuccess) /\
  import_data [r] blank_phone_file = ([r; r], ImportSuccess) /\
  fst (import_data (fst (import_data (init_db None) blank_phone_file)) blank_phone_file)
    <> fst (import_data (init_db None) blank_phone_file).
Proof. vm_compute. repeat split. discriminate. Qed.







(** C9, as stated, fails: a sheet without the expected columns and without
    data rows is reported as imported successfully. *)
Lemma headerless_import_succeeds :
  unparseable headerless_file = true /\
  import_data [] headerless_file = ([], ImportSuccess).
Proof. vm_compute. split; reflexivity. Qed.

(** C9, amended.  An import of a file that cannot be read, or that lacks
    one of the three columns, leaves the table as it was; it returns the
    failure summary, except for a sheet without data rows, which is reported
    as a success. *)
Theorem unparseable_import (db : table) (file : xlsx) :
  unparseable file = true ->
  fst (import_data db file) = db /\
  if empty_sheet file then snd (import_data db file) = ImportSuccess
  else exists e, snd (import_data db file) = ImportFailed e.
Proof.
  destruct file as [df|]; simpl.
  - intros H. apply negb_true_iff in H. unfold import_data.
    destruct (rows df) as [|r rs] eqn:R; simpl.
    + split; reflexivity.
    + destruct (import_row_missing_column df db r H) as [e He].
      rewrite He. simpl. split; [reflexivity | now exists e].
  - intros _. split; [reflexivity | now exists ReadError].
Qed.

Lemma unparseable_import_witness :
  fst (import_data [new_client bob stamp us_number]
         (Some {| columns := [lit "username"; lit "phone"];
                  rows := [[CText bob; CText uk_number]] |}))
  = [new_client bob stamp us_number] /\
  exists e, snd (import_data [new_client bob stamp us_number]
                   (Some {| columns := [lit "username"; lit "phone"];
                            rows := [[CText bob; CText uk_number]] |}))
            = ImportFailed e.
Proof.
  exact (unparseable_import [new_client bob stamp us_number]
           (Some {| columns := [lit "username"; lit "phone"];
                    rows := [[CText bob; CText uk_number]] |}) eq_refl).
Defined.

(** ** Trimming *)

Lemma batch_step_strip (user time : str) (st : batch_state) (a b : str) :
  strip a = strip b -> batch_step user time st a = batch_step user time st b.
Proof. intros H. unfold batch_step. now rewrite H. Qed.

Lemma batch_loop_strip (user time : str) (xs ys : list str) (st : batch_state) :
  map strip xs = map strip ys ->
  batch_loop user time st xs = batch_loop user time st ys.
Proof.
  revert ys st. induction xs as [|x xs IH]; intros [|y ys] st H; try discriminate.
  - reflexivity.
  - injection H as Hx Hxs. simpl.
    rewrite (batch_step_strip user time st x y Hx).
    destruct (batch_step user time st y); simpl; [now apply IH | reflexivity].
Qed.

(** ** Witnesses of the import and validator lemmas *)

Lemma valid_phone_ascii_witness :
  valid_phone (lit "+1-123-4567") = canonical (lit "+1-123-4567").
Proof.
  apply valid_phone_ascii. unfold lit. simpl.
  repeat (constructor; [reflexivity|]). constructor.
Defined.


Lemma reimport_with_phones_witness :
  import_data (fst (import_data [] mixed_file)) mixed_file
  = (fst (import_data [] mixed_file), snd (import_data [] mixed_file)).
Proof.
  exact (reimport_with_phones []
           {| columns := header;
              rows := [[CText bob; CText us_number; CText stamp];
                       [CText bob; CText (lit "abc"); CText stamp]] |} eq_refl).
Defined.

(** ** Lookups after an operation *)

Lemma select_phone_known (db : table) (p q : str) :
  select_phone db p = true ->
  select_phone db q = (select_phone db q || PyStr.eqb p q)%bool.
Proof.
  intros Hp. destruct (PyStr.eqb p q) eqn:E.
  - apply eqb_eq in E. subst q. now rewrite Hp.
  - now rewrite orb_false_r.
Qed.

(** X1.  Insert and lookup: after [add_number] with the phone number [p],
    [number_exists] answers yes for [p] and answers for every other number
    what it answered before. *)
Theorem add_number_lookup (db : table) (user p time q : str) :
  number_exists (fst (add_number user p time db)) q
  = (number_exists db q || PyStr.eqb p q)%bool.
Proof.
  rewrite add_number_cases. unfold number_exists. cbn [fst].
  destruct (select_phone db p) eqn:E.
  - now apply select_phone_known.
  - now rewrite select_phone_app, select_phone_new.
Qed.

(** X2.  The first writer wins: a second [add_number] with a phone number
    that was added before, whatever its user name and time, leaves the
    table as the first call left it. *)
Theorem add_number_twice (db : table) (u1 t1 u2 t2 p : str) :
  fst (add_number u2 p t2 (fst (add_number u1 p t1 db)))
  = fst (add_number u1 p t1 db).
Proof.
  rewrite (add_number_cases db). cbn [fst].
  destruct (number_exists db p) eqn:E.
  - rewrite add_number_cases, E. reflexivity.
  - rewrite add_number_cases, number_exists_snoc. reflexivity.
Qed.

(** X3.  After a message, the table holds the numbers it held before and,
    when the trimmed text passes the validator, the trimmed text; no other
    number appears. *)
Theorem handle_message_lookup (db : table) (u : option str) (text now q : str) :
  number_exists (fst (handle_message db u text now)) q
  = (number_exists db q
     || (valid_phone (strip text) && PyStr.eqb (strip text) q))%bool.
Proof.
  rewrite handle_message_cases. cbv zeta. unfold number_exists.
  destruct (valid_phone (strip text)); cbn [fst andb].
  - destruct (select_phone db (strip text)) eqn:E; cbn [fst].
    + now apply select_phone_known.
    + now rewrite select_phone_app, select_phone_new.
  - now rewrite orb_false_r.
Qed.

Lemma batch_loop_lookup (user time : str) (numbers : list str) (st st' : batch_state)
    (q : str) :
  batch_loop user time st numbers = Ok st' ->
  select_phone (conn st') q
  = (select_phone (conn st) q
     || (valid_phone q && existsb (PyStr.eqb q) (map strip numbers)))%bool.
Proof.
  revert st. induction numbers as [|num numbers IH]; intros st; simpl.
  - intros [= <-]. now rewrite andb_false_r, orb_false_r.
  - rewrite batch_step_cases. cbn [bind]. cbv zeta. intros Hl.
    rewrite (IH _ Hl). clear IH Hl.
    destruct (PyStr.eqb q (strip num)) eqn:E.
    + apply eqb_eq in E. subst q. cbn [orb]. rewrite andb_true_r.
      destruct (valid_phone (strip num)); cbn [conn].
      * destruct (select_phone (conn st) (strip num)) eqn:S; cbn [conn].
        -- now rewrite S.
        -- rewrite select_phone_app, select_phone_new, eqb_refl.
           now rewrite !orb_true_r.
      * reflexivity.
    + cbn [orb].
      assert (Hsame : forall c, select_phone c q
                = select_phone (if valid_phone (strip num)
                                then if select_phone c (strip num) then c
                                     else c ++ [new_client user time (strip num)]
                                else c) q).
      { intros c. destruct (valid_phone (strip num)); [|reflexivity].
        destruct (select_phone c (strip num)); [reflexivity|].
        rewrite select_phone_app, select_phone_new, eqb_sym, E.
        now rewrite orb_false_r. }
      rewrite (Hsame (conn st)).
      destruct (valid_phone (strip num)); [|reflexivity].
      destruct (select_phone (conn st) (strip num)); reflexivity.
Qed.

(** X4.  After a batch, the table holds the numbers it held before and the
    trimmed entries of the batch that pass the validator; no other number
    appears. *)
Theorem batch_input_lookup (db : table) (u : option str) (args : list str) (now q : str) :
  number_exists (fst (batch_input db u args now)) q
  = (number_exists db q
     || (valid_phone q && existsb (PyStr.eqb q) (map strip args)))%bool.
Proof.
  unfold batch_input, number_exists. destruct args as [|a args].
  - cbn [fst map existsb]. now rewrite andb_false_r, orb_false_r.
  - destruct (batch_loop_returns (username_or_unknown u) now (a :: args) (batch_start db))
      as [st Hst].
    rewrite Hst. cbn [fst]. now rewrite (batch_loop_lookup _ _ _ _ q Hst).
Qed.

(** ** Padded numbers *)

Lemma picked_nth (l : list (str * outcome)) (n : nat) (p : str) (o : outcome) :
  nth_error l n = Some (p, o) -> In p (picked o l).
Proof.
  revert n. induction l as [|[q c] l IH]; intros [|n]; simpl; try discriminate.
  - intros [= -> ->]. rewrite picked_cons.
    destruct o; simpl; now left.
  - intros H. rewrite picked_cons. destruct (outcome_eqb c o); [right|]; eauto.
Qed.

Lemma classify_batch_strip (db : table) (xs ys earlier earlier' : list str) :
  map strip xs = map strip ys -> map strip earlier = map strip earlier' ->
  classify_batch db earlier xs = classify_batch db earlier' ys.
Proof.
  revert ys earlier earlier'.
  induction xs as [|x xs IH]; intros [|y ys] earlier earlier' H He; try discriminate.
  - reflexivity.
  - injection H as Hx Hxs. cbn [classify_batch]. unfold classify. cbv zeta.
    rewrite Hx, He. f_equal. apply IH; [assumption|].
    rewrite !map_app. cbn [map]. now rewrite Hx, He.
Qed.

(** C10.  A number the validator accepts, surrounded by white space only:
    as a message and as an entry of a batch it is handled exactly as the
    number without the white space, and the trimmed number is what the
    message handler and the batch check, write to the table and echo.  A
    message is answered with the trimmed number and writes it when it is
    new.  A batch holding the padded entry writes and answers what the
    classification of the batch with the trimmed number in its place says:
    the trimmed number is in the list of added or of existing numbers and
    in the table afterwards, with the record of the trimmed number when it
    is reported as added; a batch of the padded entry alone writes and
    echoes the trimmed number. *)
Theorem padding_is_trimmed (db : table) (u : option str) (ws1 p ws2 now : str) :
  valid_phone p = true ->
  forallb isspace_char ws1 = true -> forallb isspace_char ws2 = true ->
  let raw := ws1 ++ p ++ ws2 in
  let user := username_or_unknown u in
  handle_message db u raw now = handle_message db u p now /\
  handle_message db u raw now =
    (if number_exists db p then (db, Ok (ReplyExists p))
     else (db ++ [new_client user now p], Ok (ReplySaved p))) /\
  (forall pre post,
     batch_input db u (pre ++ raw :: post) now = batch_input db u (pre ++ p :: post) now) /\
  (forall st,
     batch_step user now st raw =
     Ok (if select_phone (conn st) p then
           {| conn := conn st; added_list := added_list st;
              exists_list := exists_list st ++ [p]; invalid_list := invalid_list st |}
         else
           {| conn := conn st ++ [new_client user now p];
              added_list := added_list st ++ [p];
              exists_list := exists_list st; invalid_list := invalid_list st |})) /\
  (forall pre post,
     let cls := classify_batch db [] (pre ++ p :: post) in
     batch_input db u (pre ++ raw :: post) now =
       (db ++ map (new_client user now) (picked Added cls),
        Ok (ReplyBatch (picked Added cls) (picked Duplicate cls) (picked Invalid cls))) /\
     (In p (picked Added cls) \/ In p (picked Duplicate cls)) /\
     number_exists (fst (batch_input db u (pre ++ raw :: post) now)) p = true /\
     (In p (picked Added cls) ->
      In (new_client user now p) (fst (batch_input db u (pre ++ raw :: post) now)))) /\
  batch_input db u [raw] now =
    (if number_exists db p then (db, Ok (ReplyBatch [] [p] []))
     else (db ++ [new_client user now p], Ok (ReplyBatch [p] [] []))).
Proof.
  intros Hp H1 H2 raw user.
  assert (Hraw : strip raw = p) by (now apply strip_padded).
  assert (Hstrip : strip raw = strip p) by (now rewrite Hraw, strip_valid).
  assert (Hbatch : forall pre post,
            batch_input db u (pre ++ raw :: post) now
            = (db ++ map (new_client user now)
                       (picked Added (classify_batch db []
                                        (pre ++ p :: post))),
               Ok (ReplyBatch
                     (picked Added (classify_batch db []
                                      (pre ++ p :: post)))
                     (picked Duplicate (classify_batch db []
                                      (pre ++ p :: post)))
                     (picked Invalid (classify_batch db []
                                      (pre ++ p :: post)))))).
  { intros pre post. unfold batch_input.
    rewrite (batch_loop_classified db _ _ (pre ++ raw :: post) [] (batch_start db)).
    - rewrite (classify_batch_strip db (pre ++ raw :: post)
                 (pre ++ p :: post) [] []).
      + destruct pre; reflexivity.
      + rewrite !map_app. cbn [map]. now rewrite Hstrip.
      + reflexivity.
    - intros q _. simpl. now rewrite orb_false_r. }
  assert (Hin : forall pre post,
            In p (picked Added (classify_batch db []
                                  (pre ++ p :: post)))
            \/ In p (picked Duplicate (classify_batch db []
                                  (pre ++ p :: post)))).
  { intros pre post.
    pose proof (classify_batch_nth db pre post p) as Hn.
    unfold classify in Hn. cbv zeta in Hn. rewrite (strip_valid p Hp), Hp in Hn.
    destruct (_ || _)%bool; [right | left]; exact (picked_nth _ _ Hn). }
  repeat split.
  - rewrite !handle_message_cases. cbv zeta. now rewrite Hstrip.
  - rewrite handle_message_cases. cbv zeta. rewrite Hraw, Hp.
    destruct (number_exists db p); reflexivity.
  - intros pre post. unfold batch_input.
    rewrite (batch_loop_strip _ _ (pre ++ raw :: post) (pre ++ p :: post)).
    + destruct pre; reflexivity.
    + rewrite !map_app. simpl. now rewrite Hstrip.
  - intros st. rewrite batch_step_cases. cbv zeta. rewrite Hraw, Hp.
    destruct (select_phone (conn st) p); reflexivity.
  - apply Hbatch.
  - apply Hin.
  - unfold batch_input, number_exists.
    destruct (batch_loop_returns (username_or_unknown u) now (pre ++ raw :: post)
                (batch_start db)) as [st Hst].
    rewrite Hst. destruct pre; cbn [app fst];
      rewrite (batch_loop_lookup _ _ _ _ p Hst), Hp, andb_true_l;
      apply orb_true_iff; right; apply existsb_eqb_In;
      rewrite map_app; apply in_or_app; right; left; exact Hraw.
  - intros Ha. rewrite Hbatch. cbn [fst]. apply in_or_app. right.
    now apply in_map.
  - specialize (Hbatch [] []). cbn [app map] in Hbatch. rewrite Hbatch.
    cbn [classify_batch]. unfold classify. cbv zeta.
    rewrite (strip_valid p Hp), Hp. cbn [map existsb]. rewrite orb_false_r.
    destruct (number_exists db p); unfold picked; cbn [filter snd outcome_eqb map fst];
      [now rewrite app_nil_r | reflexivity].
Qed.

Lemma padding_is_trimmed_witness :
  handle_message [] None (lit "  +11234567890 ") stamp
  = ([new_client (lit "unknown") stamp us_number], Ok (ReplySaved us_number)) /\
  batch_input [] (Some bob) [lit "  +11234567890 "] stamp
  = ([new_client bob stamp us_number], Ok (ReplyBatch [us_number] [] [])).
Proof.
  pose proof (padding_is_trimmed [] None (lit "  ") us_number (lit " ") stamp
                eq_refl eq_refl eq_refl) as Hm.
  pose proof (padding_is_trimmed [] (Some bob) (lit "  ") us_number (lit " ") stamp
                eq_refl eq_refl eq_refl) as Hb.
  split.
  - exact (proj1 (proj2 Hm)).
  - exact (proj2 (proj2 (proj2 (proj2 (proj2 Hb))))).
Defined.

(** ** What the handlers never do *)

Lemma batch_loop_extends (user time : str) (numbers : list str) (st st' : batch_state) :
  batch_loop user time st numbers = Ok st' -> exists new, conn st' = conn st ++ new.
Proof.
  revert st. induction numbers as [|num numbers IH]; intros st; simpl.
  - intros [= <-]. exists []. now rewrite app_nil_r.
  - rewrite batch_step_cases. cbn [bind]. cbv zeta. intros Hl.
    destruct (IH _ Hl) as [new Hnew]. rewrite Hnew. clear IH Hl Hnew.
    destruct (valid_phone (strip num)); cbn [conn]; [|now exists new].
    destruct (select_phone (conn st) (strip num)); cbn [conn]; [now exists new|].
    rewrite <- app_assoc. eauto.
Qed.

Lemma import_rows_extends (cols : list str) (rs : list (list cell)) (db db' : table) :
  import_rows cols db rs = Ok db' -> exists new, db' = db ++ new.
Proof.
  revert db. induction rs as [|r rs IH]; intros db; simpl.
  - intros [= <-]. exists []. now rewrite app_nil_r.
  - destruct (import_row cols db r) as [db1|e] eqn:E; simpl; [|discriminate].
    intros Hl. destruct (IH _ Hl) as [new ->]. clear IH Hl.
    unfold import_row, bind in E.
    destruct (getitem cols r (lit "username")); [|discriminate].
    destruct (getitem cols r (lit "phone_number")); [|discriminate].
    destruct (getitem cols r (lit "added_time")); [|discriminate].
    do 3 (destruct (bind_param _); [|discriminate]).
    injection E as <-. unfold insert_or_ignore.
    destruct (unique_conflict _ _); [now exists new|].
    rewrite <- app_assoc. eauto.
Qed.

(** X6.  Records are only ever appended: a message, a batch or an import
    leaves every record of the table in place and unchanged, in the same
    order, and at most adds records after them. *)
Theorem records_only_appended (db : table) (o : op) :
  exists new, run_op db o = db ++ new.
Proof.
  destruct o as [u text now | u args now | file]; simpl.
  - rewrite handle_message_cases. cbv zeta.
    destruct (valid_phone (strip text)); [|exists []; now rewrite app_nil_r].
    destruct (number_exists db (strip text)); cbn [fst]; eauto.
    exists []. now rewrite app_nil_r.
  - unfold batch_input. destruct args as [|a args].
    + exists []. now rewrite app_nil_r.
    + destruct (batch_loop _ _ _ _) as [st|e] eqn:E; cbn [fst].
      * exact (batch_loop_extends _ _ _ _ E).
      * exists []. now rewrite app_nil_r.
  - unfold import_data. destruct file as [df|].
    + destruct (import_rows _ _ _) as [db'|e] eqn:E; cbn [fst].
      * exact (import_rows_extends _ _ _ E).
      * exists []. now rewrite app_nil_r.
    + exists []. now rewrite app_nil_r.
Qed.

(** X7.  Neither handler lets an exception escape: a message is always
    answered, and so is a batch, whose plain [INSERT] (outside any [try]) is
    never rejected by the UNIQUE constraint because the [SELECT] before it
    ran on the same connection. *)
Theorem handlers_always_reply (db : table) (u : option str) (text now : str)
    (args : list str) :
  (exists r, snd (handle_message db u text now) = Ok r) /\
  (exists r, snd (batch_input db u args now) = Ok r).
Proof.
  split.
  - rewrite handle_message_cases. cbv zeta.
    destruct (valid_phone (strip text)); [|cbn [snd]; eauto].
    destruct (number_exists db (strip text)); cbn [snd]; eauto.
  - unfold batch_input. destruct args as [|a args]; [cbn [snd]; eauto|].
    destruct (batch_loop_returns (username_or_unknown u) now (a :: args) (batch_start db))
      as [st Hst].
    rewrite Hst. cbn [snd]. eauto.
Qed.

(** ** The lists of a batch *)

Lemma picked_invalid (db : table) (args earlier : list str) :
  picked Invalid (classify_batch db earlier args)
  = filter (fun p => negb (valid_phone p)) (map strip args).
Proof.
  revert earlier. induction args as [|x args IH]; intros earlier; [reflexivity|].
  cbn [classify_batch map filter]. rewrite picked_cons, IH. unfold classify. cbv zeta.
  destruct (valid_phone (strip x)); cbn [negb]; [|reflexivity].
  destruct (_ || _)%bool; reflexivity.
Qed.

Lemma picked_valid_count (db : table) (args earlier : list str) :
  List.length (picked Added (classify_batch db earlier args))
  + List.length (picked Duplicate (classify_batch db earlier args))
  = List.length (filter valid_phone (map strip args)).
Proof.
  revert earlier. induction args as [|x args IH]; intros earlier; [reflexivity|].
  cbn [classify_batch map filter]. rewrite !picked_cons.
  specialize (IH (earlier ++ [x])). unfold classify. cbv zeta.
  destruct (valid_phone (strip x)); cbn [outcome_eqb]; [|exact IH].
  destruct (_ || _)%bool; cbn [outcome_eqb List.length]; lia.
Qed.

Lemma picked_added_fresh (db : table) (args earlier : list str) (p : str) :
  In p (picked Added (classify_batch db earlier args)) ->
  valid_phone p = true /\ number_exists db p = false /\
  ~ In p (map strip earlier) /\ In p (map strip args).
Proof.
  revert earlier. induction args as [|x args IH]; intros earlier; [intros []|].
  cbn [classify_batch map]. rewrite picked_cons. unfold classify. cbv zeta.
  assert (Hrest : In p (picked Added (classify_batch db (earlier ++ [x]) args)) ->
                  valid_phone p = true /\ number_exists db p = false /\
                  ~ In p (map strip earlier) /\ In p (strip x :: map strip args)).
  { intros H. destruct (IH _ H) as [V [N [E I]]]. repeat split; auto.
    - intros HE. apply E. rewrite map_app. apply in_or_app. now left.
    - now right. }
  destruct (valid_phone (strip x)) eqn:V; cbn [outcome_eqb]; [|exact Hrest].
  destruct (number_exists db (strip x)) eqn:N; cbn [orb outcome_eqb]; [exact Hrest|].
  destruct (existsb (PyStr.eqb (strip x)) (map strip earlier)) eqn:M;
    cbn [outcome_eqb]; [exact Hrest|].
  intros [<- | H]; [|now apply Hrest].
  repeat split; auto.
  - intros HE. apply existsb_eqb_In in HE. congruence.
  - now left.
Qed.

Lemma picked_added_nodup (db : table) (args earlier : list str) :
  NoDup (picked Added (classify_batch db earlier args)).
Proof.
  revert earlier. induction args as [|x args IH]; intros earlier; [constructor|].
  cbn [classify_batch]. rewrite picked_cons.
  destruct (outcome_eqb _ _); [|apply IH].
  constructor; [|apply IH].
  intros H. apply picked_added_fresh in H as [_ [_ [E _]]].
  apply E. rewrite map_app. apply in_or_app. right. now left.
Qed.

Lemma picked_duplicate_valid (db : table) (args earlier : list str) (p : str) :
  In p (picked Duplicate (classify_batch db earlier args)) ->
  valid_phone p = true /\ In p (map strip args).
Proof.
  revert earlier. induction args as [|x args IH]; intros earlier; [intros []|].
  cbn [classify_batch map]. rewrite picked_cons. unfold classify. cbv zeta.
  assert (Hrest : In p (picked Duplicate (classify_batch db (earlier ++ [x]) args)) ->
                  valid_phone p = true /\ In p (strip x :: map strip args)).
  { intros H. destruct (IH _ H) as [V I]. split; [assumption | now right]. }
  destruct (valid_phone (strip x)) eqn:V; cbn [outcome_eqb]; [|exact Hrest].
  destruct (_ || _)%bool; cbn [outcome_eqb]; [|exact Hrest].
  intros [<- | H]; [|now apply Hrest].
  split; [assumption | now left].
Qed.

Lemma batch_input_lists (db : table) (u : option str) (raw : str) (rest : list str)
    (now : str) :
  snd (batch_input db u (raw :: rest) now)
  = Ok (ReplyBatch (picked Added (classify_batch db [] (raw :: rest)))
          (picked Duplicate (classify_batch db [] (raw :: rest)))
          (picked Invalid (classify_batch db [] (raw :: rest)))).
Proof.
  unfold batch_input.
  rewrite (batch_loop_classified db _ _ (raw :: rest) [] (batch_start db)).
  - reflexivity.
  - intros p _. simpl. now rewrite orb_false_r.
Qed.

(** X8.  Every entry of a batch is reported exactly once: the list of
    invalid entries is the trimmed entries that fail the validator, in
    submission order, and the two other lists together have as many entries
    as there are trimmed entries that pass it. *)
Theorem batch_reports_every_entry (db : table) (u : option str) (raw : str)
    (rest : list str) (now : str) :
  exists added existing,
    snd (batch_input db u (raw :: rest) now)
    = Ok (ReplyBatch added existing
            (filter (fun p => negb (valid_phone p)) (map strip (raw :: rest)))) /\
    List.length added + List.length existing
    = List.length (filter valid_phone (map strip (raw :: rest))).
Proof.
  exists (picked Added (classify_batch db [] (raw :: rest))),
         (picked Duplicate (classify_batch db [] (raw :: rest))).
  split.
  - rewrite batch_input_lists. now rewrite picked_invalid.
  - apply picked_valid_count.
Qed.

(** X9.  The numbers a batch reports as added are pairwise distinct, pass
    the validator, were entries of the batch and were not in the table
    before; the numbers it reports as existing pass the validator and were
    entries of the batch; and every reported number of both lists is in the
    table afterwards. *)
Theorem batch_lists_sound (db : table) (u : option str) (raw : str)
    (rest : list str) (now : str) :
  exists added existing invalid,
    snd (batch_input db u (raw :: rest) now) = Ok (ReplyBatch added existing invalid) /\
    NoDup added /\
    (forall p, In p added ->
       valid_phone p = true /\ In p (map strip (raw :: rest)) /\
       number_exists db p = false /\
       number_exists (fst (batch_input db u (raw :: rest) now)) p = true) /\
    (forall p, In p existing ->
       valid_phone p = true /\ In p (map strip (raw :: rest)) /\
       number_exists (fst (batch_input db u (raw :: rest) now)) p = true).
Proof.
  assert (Hafter : forall p, valid_phone p = true -> In p (map strip (raw :: rest)) ->
            number_exists (fst (batch_input db u (raw :: rest) now)) p = true).
  { intros p V I. unfold batch_input, number_exists.
    destruct (batch_loop_returns (username_or_unknown u) now (raw :: rest) (batch_start db))
      as [st Hst].
    rewrite Hst. cbn [fst]. rewrite (batch_loop_lookup _ _ _ _ p Hst), V.
    apply existsb_eqb_In in I. rewrite I. apply orb_true_r. }
  exists (picked Added (classify_batch db [] (raw :: rest))),
         (picked Duplicate (classify_batch db [] (raw :: rest))),
         (picked Invalid (classify_batch db [] (raw :: rest))).
  split; [apply batch_input_lists|].
  split; [apply picked_added_nodup|]. split.
  - intros p H. apply picked_added_fresh in H as [V [N [_ I]]]. auto.
  - intros p H. apply picked_duplicate_valid in H as [V I]. auto.
Qed.

(** ** More on the import *)

Lemma import_row_lookup (cols : list str) (db db' : table) (r : list cell) (q : str) :
  import_row cols db r = Ok db' ->
  select_phone db' q = (select_phone db q || row_phone_is cols q r)%bool.
Proof.
  unfold import_row, row_phone_is, bind.
  destruct (getitem cols r (lit "username")) as [cu|]; [|discriminate].
  destruct (getitem cols r (lit "phone_number")) as [cp|]; [|discriminate].
  destruct (getitem cols r (lit "added_time")) as [ct|]; [|discriminate].
  destruct (bind_param cu) as [vu|]; [|discriminate].
  destruct cp as [|p|]; cbn [bind_param]; [| |discriminate];
    (destruct (bind_param ct) as [vt|]; [|discriminate]);
    intros [= <-]; unfold insert_or_ignore, unique_conflict; cbn [phone_number].
  - rewrite select_phone_app. unfold select_phone at 2, phone_is. simpl.
    reflexivity.
  - destruct (select_phone db p) eqn:E.
    + now apply select_phone_known.
    + rewrite select_phone_app. unfold select_phone at 2, phone_is. simpl.
      now rewrite orb_false_r.
Qed.

Lemma import_rows_lookup (cols : list str) (rs : list (list cell)) (db db' : table)
    (q : str) :
  import_rows cols db rs = Ok db' ->
  select_phone db' q = (select_phone db q || existsb (row_phone_is cols q) rs)%bool.
Proof.
  revert db. induction rs as [|r rs IH]; intros db; simpl.
  - intros [= <-]. now rewrite orb_false_r.
  - destruct (import_row cols db r) as [db1|e] eqn:E; simpl; [|discriminate].
    intros Hl. rewrite (IH _ Hl), (import_row_lookup _ _ _ q E). symmetry. apply orb_assoc.
Qed.

(** X5.  After an import that reports success, the table holds the numbers
    it held before and the texts that the phone number column of the data
    frame holds, as [pd.read_excel] returned it and as they reach the
    driver; no other number appears. *)
Theorem import_data_lookup (db : table) (df : dataframe) (q : str) :
  snd (import_data db (Some df)) = ImportSuccess ->
  number_exists (fst (import_data db (Some df))) q
  = (number_exists db q || existsb (row_phone_is (columns df) q) (rows df))%bool.
Proof.
  unfold import_data, number_exists.
  destruct (import_rows (columns df) db (rows df)) as [db'|e] eqn:E; cbn [fst snd];
    [|discriminate].
  intros _. exact (import_rows_lookup _ _ _ q E).
Qed.

Lemma import_data_lookup_witness :
  number_exists (fst (import_data [new_client bob stamp uk_number] mixed_file)) us_number
  = true.
Proof.
  exact (import_data_lookup [new_client bob stamp uk_number]
           {| columns := header;
              rows := [[CText bob; CText us_number; CText stamp];
                       [CText bob; CText (lit "abc"); CText stamp]] |}
           us_number eq_refl).
Defined.

Lemma getitem_present (name : str) (cols : list str) (r : list cell) :
  existsb (PyStr.eqb name) cols = true ->
  List.length r = List.length cols -> forallb bindable r = true ->
  exists c, getitem cols r name = Ok c /\ bindable c = true.
Proof.
  revert r. induction cols as [|c cols IH]; intros r H; [discriminate|].
  destruct r as [|v r]; [discriminate|]. simpl. intros [= Hlen] Hb.
  apply andb_true_iff in Hb as [Hv Hr].
  destruct (PyStr.eqb c name) eqn:E; [eauto|].
  simpl in H. rewrite eqb_sym, E in H. now apply IH.
Qed.

Lemma bind_param_bindable (c : cell) : bindable c = true -> exists v, bind_param c = Ok v.
Proof. destruct c; simpl; eauto. discriminate. Qed.

Lemma import_row_well_formed (df : dataframe) (db : table) (r : list cell) :
  has_columns df = true -> well_formed_row (columns df) r = true ->
  exists db', import_row (columns df) db r = Ok db'.
Proof.
  unfold has_columns, well_formed_row. intros H Hr.
  apply andb_true_iff in H as [H Ht]. apply andb_true_iff in H as [Hu Hp].
  apply andb_true_iff in Hr as [Hlen Hb]. apply Nat.eqb_eq in Hlen.
  destruct (getitem_present _ _ r Hu Hlen Hb) as [cu [Gu Bu]].
  destruct (getitem_present _ _ r Hp Hlen Hb) as [cp [Gp Bp]].
  destruct (getitem_present _ _ r Ht Hlen Hb) as [ct [Gt Bt]].
  destruct (bind_param_bindable cu Bu) as [vu Eu].
  destruct (bind_param_bindable cp Bp) as [vp Ep].
  destruct (bind_param_bindable ct Bt) as [vt Et].
  unfold import_row. rewrite Gu, Gp, Gt. cbn [bind]. rewrite Eu, Ep, Et. cbn [bind].
  eauto.
Qed.

(** X12.  When the sheet has the three columns and every data row is
    aligned with the header and holds only cells the driver can bind, the
    import reports success, whatever the table holds and whatever the cells
    say. *)
Theorem import_well_formed_succeeds (db : table) (df : dataframe) :
  has_columns df = true ->
  forallb (well_formed_row (columns df)) (rows df) = true ->
  snd (import_data db (Some df)) = ImportSuccess.
Proof.
  intros H Hrs. unfold import_data.
  assert (Hok : exists db', import_rows (columns df) db (rows df) = Ok db').
  { revert db Hrs. induction (rows df) as [|r rs IH]; intros db Hrs; simpl.
    - eauto.
    - simpl in Hrs. apply andb_true_iff in Hrs as [Hr Hrs].
      destruct (import_row_well_formed df db r H Hr) as [db1 E].
      rewrite E. simpl. now apply IH. }
  destruct Hok as [db' E]. now rewrite E.
Qed.

Lemma import_well_formed_succeeds_witness :
  snd (import_data [new_client bob stamp us_number]
         (Some {| columns := [lit "id"; lit "phone_number"; lit "added_time"; lit "username"];
                  rows := [[CNull; CText us_number; CNull; CText bob];
                           [CText (lit "7"); CText (lit "n/a"); CText stamp; CNull]] |}))
  = ImportSuccess.
Proof.
  exact (import_well_formed_succeeds [new_client bob stamp us_number]
           {| columns := [lit "id"; lit "phone_number"; lit "added_time"; lit "username"];
              rows := [[CNull; CText us_number; CNull; CText bob];
                       [CText (lit "7"); CText (lit "n/a"); CText stamp; CNull]] |}
           eq_refl eq_refl).
Defined.

(** ** Trimming, in general *)

Lemma lstrip_idem (s : str) : lstrip (lstrip s) = lstrip s.
Proof.
  induction s as [|c s IH]; [reflexivity|]. simpl.
  destruct (isspace_char c) eqn:E; [exact IH|]. simpl. now rewrite E.
Qed.

Lemma lstrip_head (s : str) :
  match lstrip s with
  | [] => True
  | c :: _ => isspace_char c = false
  end.
Proof.
  induction s as [|c s IH]; [exact I|]. simpl.
  destruct (isspace_char c) eqn:E; [exact IH | exact E].
Qed.

Lemma lstrip_snoc (s : str) (c : char) :
  isspace_char c = false -> lstrip (s ++ [c]) = lstrip s ++ [c].
Proof.
  intros Hc. induction s as [|d s IH]; simpl.
  - now rewrite Hc.
  - destruct (isspace_char d); [exact IH | reflexivity].
Qed.

Lemma rstrip_cons (c : char) (s : str) :
  isspace_char c = false -> rstrip (c :: s) = c :: rstrip s.
Proof.
  intros Hc. unfold rstrip. simpl rev.
  rewrite lstrip_snoc by exact Hc. rewrite rev_app_distr. reflexivity.
Qed.

Lemma rstrip_idem (s : str) : rstrip (rstrip s) = rstrip s.
Proof. unfold rstrip. now rewrite rev_involutive, lstrip_idem. Qed.

Lemma strip_idem (s : str) : strip (strip s) = strip s.
Proof.
  unfold strip.
  assert (H : lstrip (rstrip (lstrip s)) = rstrip (lstrip s)).
  { pose proof (lstrip_head s) as Hh. destruct (lstrip s) as [|c t]; [reflexivity|].
    rewrite rstrip_cons by exact Hh. simpl. now rewrite Hh. }
  now rewrite H, rstrip_idem.
Qed.

(** X15.  The handlers read nothing but the trimmed text: a message is
    handled as its trimmed text would be, valid or not, and a batch as the
    batch of its trimmed entries would be. *)
Theorem handlers_read_trimmed (db : table) (u : option str) (text now : str)
    (args : list str) :
  handle_message db u (strip text) now = handle_message db u text now /\
  batch_input db u (map strip args) now = batch_input db u args now.
Proof.
  split.
  - rewrite !handle_message_cases. cbv zeta. now rewrite strip_idem.
  - unfold batch_input.
    rewrite (batch_loop_strip _ _ (map strip args) args).
    + destruct args; reflexivity.
    + rewrite map_map. apply map_ext. intros a. apply strip_idem.
Qed.

(** ** What the validator accepts *)

(** X17.  A text the validator accepts has between 8 and 16 characters,
    starts with '+' and holds no white space: a number written with blanks
    between its digits is answered as invalid. *)
Theorem valid_phone_bounds (s : str) :
  valid_phone s = true ->
  8 <= List.length s <= 16 /\ hd_error s = Some 43%N /\
  forallb (fun c => negb (isspace_char c)) s = true.
Proof.
  rewrite valid_phone_format. destruct s as [|c ds]; [discriminate|].
  unfold matches_format. cbn [List.length hd_error forallb].
  intros H. repeat (apply andb_true_iff in H as [H ?]).
  apply N.eqb_eq in H. subst c.
  apply Nat.leb_le in H0. apply Nat.leb_le in H1.
  split; [lia|]. split; [reflexivity|].
  change (isspace_char 43%N) with false. cbn [negb andb].
  eapply forallb_impl; [|exact H2].
  intros x Hx. now rewrite (digit_not_space x Hx).
Qed.

Lemma valid_phone_bounds_witness :
  8 <= List.length us_number <= 16 /\ hd_error us_number = Some 43%N /\
  forallb (fun c => negb (isspace_char c)) us_number = true.
Proof. exact (valid_phone_bounds us_number eq_refl). Defined.

(** ** A batch and its entries sent one by one *)

Lemma batch_step_as_message (u : option str) (now : str) (st st' : batch_state)
    (num : str) :
  batch_step (username_or_unknown u) now st num = Ok st' ->
  conn st' = fst (handle_message (conn st) u num now).
Proof.
  rewrite batch_step_cases, handle_message_cases. cbv zeta. unfold number_exists.
  intros [= <-].
  destruct (valid_phone (strip num)); [|reflexivity].
  destruct (select_phone (conn st) (strip num)); reflexivity.
Qed.

Lemma batch_loop_as_messages (u : option str) (now : str) (numbers : list str)
    (st st' : batch_state) :
  batch_loop (username_or_unknown u) now st numbers = Ok st' ->
  conn st' = run_ops (conn st) (map (fun num => Message u num now) numbers).
Proof.
  revert st. induction numbers as [|num numbers IH]; intros st; simpl.
  - now intros [= <-].
  - destruct (batch_step (username_or_unknown u) now st num) as [st1|e] eqn:E;
      simpl; [|discriminate].
    intros Hl. rewrite (IH _ Hl), (batch_step_as_message _ _ _ _ E). reflexivity.
Qed.

(** X18.  A batch writes what its entries would write when sent one by one
    as messages by the same user at the time of the batch: the table after
    the batch is the table after that sequence of messages. *)
Theorem batch_as_messages (db : table) (u : option str) (args : list str) (now : str) :
  fst (batch_input db u args now)
  = run_ops db (map (fun num => Message u num now) args).
Proof.
  unfold batch_input. destruct args as [|a args]; [reflexivity|].
  destruct (batch_loop_returns (username_or_unknown u) now (a :: args) (batch_start db))
    as [st Hst].
  rewrite Hst. cbn [fst]. exact (batch_loop_as_messages _ _ _ _ Hst).
Qed.
